(** * Solar panel tilt and condition optimizer

    A shallow embedding of [new-ui.py]: the defect-loss table, the label
    normalisation of [classify_image], and the efficiency model and angle
    search of [compute_best_angle].

    Conventions of the embedding.
    - Python [int] is [Z]; Python [float] is read as an exact rational [Q],
      so the arithmetic of the efficiency model is the arithmetic of the
      formulas, without binary64 rounding.  Module [Binary64] at the end of
      the definitions evaluates the same code on IEEE doubles: the search,
      the conversion of an int latitude with its [OverflowError], [round]
      and the entry point.
    - Python [str] is [string], a character being a code point below 256.
    - The call to the remote model is an oracle of the section
      [Classifier]; the requests sent to it and the lines printed are the
      state threaded through [classify_image] and [compute_best_angle]. *)

From Stdlib Require Import QArith Qabs Qround Lqa ZArith List Sorted Bool Morphisms.
From Stdlib Require Import String Ascii DecimalString Lia PrimFloat.
From Stdlib Require Import SpecFloat FloatOps FloatAxioms.
Import ListNotations.

Open Scope Q_scope.

(** ** Python strings *)

Module PyStr.

#[local] Open Scope string_scope.
#[local] Open Scope nat_scope.

Definition code (c : ascii) : nat := nat_of_ascii c.

(** [str.isspace] on one character: TAB..CR, FS..US, space, NEL, NBSP. *)
Definition isspace (c : ascii) : bool :=
  let n := code c in
  ((9 <=? n) && (n <=? 13)) || ((28 <=? n) && (n <=? 32))
  || (n =? 133) || (n =? 160).

(** Upper-case letters that have a lower-case partner 32 places up:
    A..Z, and the accented capitals 192..222 without the sign 215. *)
Definition isupper (c : ascii) : bool :=
  let n := code c in
  ((65 <=? n) && (n <=? 90))
  || ((192 <=? n) && (n <=? 222) && negb (n =? 215)).

Definition lower_char (c : ascii) : ascii :=
  if isupper c then ascii_of_nat (code c + 32) else c.

(** [s.lower()] *)
Fixpoint lower (s : string) : string :=
  match s with
  | EmptyString => EmptyString
  | String c s' => String (lower_char c) (lower s')
  end.

Fixpoint lstrip (s : string) : string :=
  match s with
  | EmptyString => EmptyString
  | String c s' => if isspace c then lstrip s' else s
  end.

Fixpoint rstrip (s : string) : string :=
  match s with
  | EmptyString => EmptyString
  | String c s' =>
      match rstrip s' with
      | EmptyString => if isspace c then EmptyString else String c EmptyString
      | r => String c r
      end
  end.

(** [s.strip()] *)
Definition strip (s : string) : string := rstrip (lstrip s).

(** [needle in haystack] *)
Fixpoint contains (needle haystack : string) : bool :=
  prefix needle haystack
  || match haystack with
     | EmptyString => false
     | String _ rest => contains needle rest
     end.

(** Truth value of a string: [not s] holds of the empty string only. *)
Definition truthy (s : string) : bool :=
  match s with EmptyString => false | _ => true end.

Definition is_ascii_lower (c : ascii) : bool :=
  let n := code c in (97 <=? n) && (n <=? 122).
Definition is_ascii_upper (c : ascii) : bool :=
  let n := code c in (65 <=? n) && (n <=? 90).

(** [s.title()] on a string of ASCII letters and separators: the first
    letter of every run of letters is upper-cased, the others are
    lower-cased.  [prev] tells whether the previous character was a
    letter.  The source applies it to keys of the table only. *)
Fixpoint title_from (prev : bool) (s : string) : string :=
  match s with
  | EmptyString => EmptyString
  | String c s' =>
      if is_ascii_lower c then
        String (if prev then c else ascii_of_nat (code c - 32))
               (title_from true s')
      else if is_ascii_upper c then
        String (if prev then ascii_of_nat (code c + 32) else c)
               (title_from true s')
      else String c (title_from false s')
  end.

Definition title (s : string) : string := title_from false s.

(** [str(n)] for an integer. *)
Definition str_of_int (n : Z) : string :=
  NilZero.string_of_int (Z.to_int n).

(** The degree sign, code point 176. *)
Definition degree : string := String (ascii_of_nat 176) EmptyString.

(** The declarative reading of [in]: the needle occurs somewhere. *)
Definition occurs_in (needle haystack : string) : Prop :=
  exists before after, haystack = before ++ needle ++ after.

End PyStr.

(** ** Python numbers *)

Module PyNum.

#[local] Open Scope Q_scope.

(** [x > y] *)
Definition gt (x y : Q) : bool := negb (Qle_bool x y).

(** [max(a, b)]: the first argument is kept unless the second is
    strictly greater. *)
Definition max (a b : Q) : Q := if gt b a then b else a.

(** [min(a, b)]: the first argument is kept unless the second is
    strictly smaller. *)
Definition min (a b : Q) : Q := if gt a b then b else a.

(** Nearest integer, halves going to the even neighbour. *)
Definition round_half_even (x : Q) : Z :=
  let n := Qfloor x in
  match Qcompare (x - inject_Z n) (1 # 2) with
  | Lt => n
  | Gt => (n + 1)%Z
  | Eq => if Z.even n then n else (n + 1)%Z
  end.

(** [round(x, 2)] *)
Definition round2 (x : Q) : Q :=
  Qred (inject_Z (round_half_even (x * 100)) / 100).

(** [range(lo, hi)] *)
Definition range (lo hi : Z) : list Z :=
  map (fun i => (lo + Z.of_nat i)%Z) (seq 0 (Z.to_nat (hi - lo))).

End PyNum.

(** ** The defect-loss table *)

(** [DEFECT_LOSS], in insertion order, which is the order in which
    [DEFECT_LOSS.keys()] is iterated. *)
Definition DEFECT_LOSS : list (string * Z) :=
  [ ("clean", 0); ("dusty", 20); ("bird drop", 30); ("snow covered", 40);
    ("electrical damage", 50); ("physical damage", 60) ]%Z%string.

Definition keys (d : list (string * Z)) : list string := map fst d.

Fixpoint lookup (d : list (string * Z)) (k : string) : option Z :=
  match d with
  | [] => None
  | (k', v) :: d' => if String.eqb k' k then Some v else lookup d' k
  end.

(** [d.get(k, default)] *)
Definition dict_get (d : list (string * Z)) (k : string) (default : Z) : Z :=
  match lookup d k with
  | Some v => v
  | None => default
  end.

(** ** The efficiency model and the angle search *)

Definition base_loss : Q := 2.0.

(** [target_optimal = (latitude * 0.76) + 3.1] *)
Definition target_optimal (latitude : Q) : Q := (latitude * 0.76) + 3.1.

(** The body of the loop up to the comparison: the efficiency of one
    candidate angle. *)
Definition efficiency (target : Q) (defect_loss : Q) (angle : Z) : Q :=
  let angle_deviation_loss := 0.4 * Qabs (target - inject_Z angle) in
  let efficiency := (100 - base_loss) - defect_loss - angle_deviation_loss in
  PyNum.max 0 (PyNum.min 99.0 efficiency).

(** One iteration: the pair is ([best_angle], [best_eff]). *)
Definition search_step (target defect_loss : Q) (best : Z * Q) (angle : Z)
  : Z * Q :=
  let efficiency := efficiency target defect_loss angle in
  if PyNum.gt efficiency (snd best) then (angle, efficiency) else best.

(** The loop [for angle in range(0, 91)], started from
    [best_angle = 0], [best_eff = -1]. *)
Definition search (latitude defect_loss : Q) : Z * Q :=
  fold_left (search_step (target_optimal latitude) defect_loss)
            (PyNum.range 0 91) (0%Z, -1).

(** ** The classifier and the entry point *)

(** What the [try] block of [classify_image] can meet: an exception raised
    by [client.models.generate_content] or while its response is read,
    kept as the text that [print] shows for it; or a response whose [text]
    is [None] or a string. *)
Inductive Upstream : Type :=
| Raised (message : string)
| Replied (text : option string).

Section Classifier.

(** The images of the caller, and the remote model: its answer may depend
    on the image and on the requests it has already received. *)
Variable Image : Type.
Variable generate_content : list Image -> Image -> Upstream.

(** The observable state: the requests sent to the remote model and the
    lines printed, oldest first. *)
Record World : Type := mkWorld {
  requests : list Image;
  stdout : list string
}.

Definition Run (A : Type) : Type := World -> A * World.

Definition ret {A : Type} (a : A) : Run A := fun w => (a, w).

Definition bind {A B : Type} (m : Run A) (k : A -> Run B) : Run B :=
  fun w => let (a, w') := m w in k a w'.

Notation "x <- m ;; k" := (bind m (fun x => k))
  (at level 61, m at next level, right associativity).

Definition call_model (image : Image) : Run Upstream :=
  fun w => (generate_content (requests w) image,
            mkWorld (requests w ++ [image]) (stdout w)).

Definition print (line : string) : Run unit :=
  fun w => (tt, mkWorld (requests w) (stdout w ++ [line])).

(** The loop [for possible_defect in DEFECT_LOSS.keys()] with its
    [return] inside. *)
Fixpoint first_key_in (label : string) (ks : list string) : option string :=
  match ks with
  | [] => None
  | possible_defect :: ks' =>
      if PyStr.contains possible_defect label then Some possible_defect
      else first_key_in label ks'
  end.

(** The part of [classify_image] after the call: what is made of the
    response text. *)
Definition label_of_text (text : option string) : string :=
  match text with
  | None => "clean"
  | Some t =>
      if negb (PyStr.truthy t) then "clean"
      else
        let label := PyStr.lower (PyStr.strip t) in
        match first_key_in label (keys DEFECT_LOSS) with
        | Some possible_defect => possible_defect
        | None => "clean"
        end
  end%string.

Definition classify_image (image : option Image) : Run string :=
  match image with
  | None => ret "clean"%string
  | Some img =>
      r <- call_model img ;;
      match r with
      | Replied text => ret (label_of_text text)
      | Raised e =>
          _ <- print ("Error during classification: " ++ e)%string ;;
          ret "clean"%string
      end
  end.

Definition compute_best_angle (image : option Image) (latitude : option Q)
  : Run (string * string * Q) :=
  match image, latitude with
  | Some _, Some lat =>
      defect <- classify_image image ;;
      let defect_loss := dict_get DEFECT_LOSS defect 0 in
      let (best_angle, best_eff) := search lat (inject_Z defect_loss) in
      ret ((PyStr.str_of_int best_angle ++ PyStr.degree)%string,
           PyStr.title defect,
           PyNum.round2 best_eff)
  | _, _ => ret ("No input"%string, "N/A"%string, 0)
  end.

End Classifier.

Arguments mkWorld {Image} _ _.
Arguments requests {Image} _.
Arguments stdout {Image} _.
Arguments ret {Image A} _ _.
Arguments classify_image {Image} _ _ _.
Arguments compute_best_angle {Image} _ _ _ _.

(** ** The search replayed on IEEE doubles *)

Module Binary64.

Import PrimFloat.
#[local] Open Scope float_scope.

(** [float(n)] for a small natural number, by counting. *)
Fixpoint of_nat (n : nat) : float :=
  match n with
  | O => 0
  | S k => of_nat k + 1
  end.

(** [max(a, b)] and [min(a, b)] as Python evaluates them: the second
    argument replaces the first only when the comparison holds, so a NaN
    never does. *)
Definition max (a b : float) : float := if ltb a b then b else a.
Definition min (a b : float) : float := if ltb b a then b else a.

Definition target_optimal (latitude : float) : float :=
  (latitude * 0x1.851eb851eb852p-1) + 0x1.8cccccccccccdp+1.

Definition efficiency (target defect_loss : float) (angle : nat) : float :=
  let angle_deviation_loss :=
    0x1.999999999999ap-2 * abs (target - of_nat angle) in
  let efficiency := (100 - 2) - defect_loss - angle_deviation_loss in
  max 0 (min 99 efficiency).

Definition search_step (target defect_loss : float) (best : nat * float)
           (angle : nat) : nat * float :=
  let efficiency := efficiency target defect_loss angle in
  if ltb (snd best) efficiency then (angle, efficiency) else best.

Definition search (latitude defect_loss : float) : nat * float :=
  fold_left (search_step (target_optimal latitude) defect_loss)
            (seq 0 91) (O, -1).

(** ** The entry point on IEEE doubles *)

(** The latitude as the caller hands it over: a Python [int] or a Python
    [float]. *)
Inductive number : Type :=
| Int (n : Z)
| Float (x : float).

(** What a call does: it returns a value or raises [OverflowError]. *)
Inductive outcome (A : Type) : Type :=
| Returned (a : A)
| OverflowError.

Arguments Returned {A} a.
Arguments OverflowError {A}.

(** The double of a positive integer below 2^53, exact. *)
Fixpoint of_pos (p : positive) : float :=
  match p with
  | xH => 1
  | xO q => 2 * of_pos q
  | xI q => 2 * of_pos q + 1
  end.

Definition of_Z (z : Z) : float :=
  match z with
  | Z0 => 0
  | Zpos p => of_pos p
  | Zneg p => - of_pos p
  end.

(** The conversion of an [int] operand of a float operation: the nearest
    double, ties to even, or [None] when Python raises [OverflowError]
    ("int too large to convert to float").  The magnitude is cut to its 62
    leading bits, the bits cut off being remembered in the last one, which
    one addition rounds to 53 bits; the doublings that follow are exact or
    overflow. *)
Definition float_of_int (n : Z) : option float :=
  let a := Z.abs n in
  let k := Z.max 0 (Z.log2 a - 61) in
  let top := Z.shiftr a k in
  let sticky := if (Z.land a (Z.ones k) =? 0)%Z then 0%Z else 1%Z in
  let t := Z.lor top sticky in
  let m := of_Z (Z.shiftr t 31) * 0x1p+31 + of_Z (Z.land t (Z.ones 31)) in
  let x := Z.iter k (fun y => y * 2) m in
  if is_infinity x then None
  else Some (if (n <? 0)%Z then - x else x).

Definition float_of_number (x : number) : option float :=
  match x with
  | Int n => float_of_int n
  | Float f => Some f
  end.

(** The rational number that a finite double is; 0 for the others. *)
Definition to_Q (x : float) : Q :=
  match Prim2SF x with
  | S754_finite s m e =>
      let v := if (0 <=? e)%Z then inject_Z (Zpos m * 2 ^ e)
               else Qmake (Zpos m) (2 ^ Z.to_pos (- e)) in
      if s then Qopp v else v
  | _ => 0%Q
  end.

(** [round(x, 2)]: the exact value of [x] is rounded to two decimals,
    halves to the even neighbour, and the double nearest to that decimal
    is returned; doubles too large to have two decimals, infinities and
    NaN are returned as they are. *)
Definition round2 (x : float) : float :=
  match Prim2SF x with
  | S754_finite s _ _ =>
      let n := PyNum.round_half_even (Qmult (to_Q x) 100) in
      if (n =? 0)%Z then (if s then neg_zero else zero)
      else if (Z.abs n <? 2 ^ 53)%Z then of_Z n / 100
      else x
  | _ => x
  end.

(** [compute_best_angle] with its arithmetic on doubles.  The label is
    asked for before the target angle is computed, so the request has been
    sent when line 76 raises. *)
Definition compute_best_angle {Image : Type}
           (generate_content : list Image -> Image -> Upstream)
           (image : option Image) (latitude : option number)
  : Run Image (outcome (string * string * float)) :=
  fun w =>
    match image, latitude with
    | Some _, Some lat =>
        let (defect, w') := classify_image generate_content image w in
        let defect_loss := dict_get DEFECT_LOSS defect 0 in
        match float_of_number lat with
        | None => (OverflowError, w')
        | Some l =>
            let (best_angle, best_eff) := search l (of_Z defect_loss) in
            (Returned ((PyStr.str_of_int (Z.of_nat best_angle)
                        ++ PyStr.degree)%string,
                       PyStr.title defect,
                       round2 best_eff), w')
        end
    | _, _ => (Returned ("No input"%string, "N/A"%string, 0), w)
    end.

End Binary64.

(** ** The specification's reading of the model *)

(** Clamping to the closed interval from [lo] to [hi]. *)
Definition clamp (lo hi x : Q) : Q :=
  if Qlt_le_dec x lo then lo
  else if Qlt_le_dec hi x then hi
  else x.

(** The efficiency of section 4.2 of the specification, steps 1 to 4. *)
Definition efficiency_spec (angle : Z) (latitude condition_loss : Q) : Q :=
  clamp 0 99.0
    ((100 - 2.0) - condition_loss
     - 0.4 * Qabs ((latitude * 0.76 + 3.1) - inject_Z angle)).

(** [k] is the first element of [ks], in the order of [ks], that occurs in
    [label]. *)
Definition first_occurring (label : string) (ks : list string) (k : string)
  : Prop :=
  exists earlier later,
    ks = earlier ++ k :: later
    /\ PyStr.occurs_in k label
    /\ Forall (fun k' => ~ PyStr.occurs_in k' label) earlier.

(** A remote model that always answers with the same text, and one that
    always fails. *)
Definition always_replies (text : string) : list unit -> unit -> Upstream :=
  fun _ _ => Replied (Some text).

Definition always_raises (message : string) : list unit -> unit -> Upstream :=
  fun _ _ => Raised message.

Definition idle : World unit := mkWorld [] [].

(** * Properties *)

(** ** Comparisons, [max] and [min] *)

Lemma gt_cases (x y : Q) :
  (PyNum.gt x y = true /\ y < x) \/ (PyNum.gt x y = false /\ x <= y).
Proof.
  unfold PyNum.gt. destruct (Qle_bool x y) eqn:E.
  - right. split; [reflexivity | now apply Qle_bool_iff].
  - left. split; [reflexivity |].
    apply Qnot_le_lt. intro H. apply Qle_bool_iff in H. congruence.
Qed.

(** Case analysis on the comparisons of a goal, innermost first. *)
Ltac split_gt :=
  repeat match goal with
    | |- context [PyNum.gt ?x ?y] =>
        lazymatch x with context [PyNum.gt _ _] => fail | _ => idtac end;
        lazymatch y with context [PyNum.gt _ _] => fail | _ => idtac end;
        let E := fresh "Ecmp" in
        let H := fresh "Hcmp" in
        destruct (gt_cases x y) as [[E H] | [E H]]; rewrite E; clear E
    end.

Ltac split_clamp :=
  unfold clamp;
  repeat match goal with
    | |- context [Qlt_le_dec ?x ?y] =>
        lazymatch x with context [Qlt_le_dec _ _] => fail | _ => idtac end;
        lazymatch y with context [Qlt_le_dec _ _] => fail | _ => idtac end;
        destruct (Qlt_le_dec x y)
    end.

Lemma max_min_clamp (x : Q) : PyNum.max 0 (PyNum.min 99.0 x) == clamp 0 99.0 x.
Proof.
  unfold PyNum.max, PyNum.min. split_gt; split_clamp; lra.
Qed.

Lemma clamp_bounds (x : Q) : 0 <= clamp 0 99.0 x <= 99.
Proof. split_clamp; lra. Qed.

Lemma clamp_mono (x y : Q) : x <= y -> clamp 0 99.0 x <= clamp 0 99.0 y.
Proof. intro H. split_clamp; lra. Qed.

Lemma clamp_eq (x y : Q) : x == y -> clamp 0 99.0 x == clamp 0 99.0 y.
Proof. intro H. split_clamp; lra. Qed.

#[global] Instance clamp_proper : Proper (Qeq ==> Qeq) (clamp 0 99.0).
Proof. intros x y H. now apply clamp_eq. Qed.

(** ** The efficiency model *)

Lemma efficiency_clamp (target d : Q) (a : Z) :
  efficiency target d a
  == clamp 0 99.0 (98 - d - 0.4 * Qabs (target - inject_Z a)).
Proof.
  unfold efficiency, base_loss. rewrite max_min_clamp.
  apply clamp_eq. lra.
Qed.

Lemma efficiency_bounds (target d : Q) (a : Z) :
  0 <= efficiency target d a <= 99.
Proof. rewrite efficiency_clamp. apply clamp_bounds. Qed.

Lemma table_values (c : string) (loss : Z) :
  lookup DEFECT_LOSS c = Some loss ->
  In loss [0; 20; 30; 40; 50; 60]%Z.
Proof.
  unfold DEFECT_LOSS. cbn [lookup].
  repeat match goal with
    | |- context [String.eqb ?k c] => destruct (String.eqb k c)
    end; intro H; inversion H; subst; cbn; auto 10.
Qed.

Lemma table_nonneg (c : string) (loss : Z) :
  lookup DEFECT_LOSS c = Some loss -> (0 <= loss)%Z.
Proof.
  intro H. apply table_values in H. cbn in H.
  repeat (destruct H as [<- | H]; [lia |]). contradiction.
Qed.

Lemma range_In (lo hi x : Z) :
  In x (PyNum.range lo hi) <-> (lo <= x < hi)%Z.
Proof.
  unfold PyNum.range. rewrite in_map_iff. split.
  - intros (i & <- & Hi). apply in_seq in Hi. lia.
  - intro H. exists (Z.to_nat (x - lo)). split; [lia |].
    apply in_seq. lia.
Qed.

(** C1: for every candidate angle [a] of the loop, that is every integer
    from 0 to 90, every latitude [L] and every condition loss [d], the
    efficiency computed in the loop body equals
    [(100 - 2.0) - d - 0.4 * |(L * 0.76 + 3.1) - a|] clamped to the closed
    interval from 0 to 99.0; the target angle is [L * 0.76 + 3.1] and the
    base loss 2.0 is subtracted whatever the inputs. *)
Theorem efficiency_matches_spec (a : Z) (L d : Q) :
  (0 <= a <= 90)%Z ->
  In a (PyNum.range 0 91)
  /\ target_optimal L == L * 0.76 + 3.1
  /\ base_loss == 2
  /\ efficiency (target_optimal L) d a == efficiency_spec a L d.
Proof.
  intro Ha. split; [apply range_In; lia |].
  split; [reflexivity |]. split; [reflexivity |].
  rewrite efficiency_clamp. unfold efficiency_spec, target_optimal.
  apply clamp_eq. lra.
Qed.

Lemma efficiency_matches_spec_witness :
  (0 <= 24 <= 90)%Z
  /\ efficiency (target_optimal 28) 30 24 == efficiency_spec 24 28 30
  /\ efficiency_spec 24 28 30 == 67.848.
Proof.
  split; [lia |]. split.
  - apply (efficiency_matches_spec 24 28 30). lia.
  - vm_compute. reflexivity.
Defined.

Lemma efficiency_shift (target d : Q) (a : Z) :
  0 <= d ->
  efficiency target d a == clamp 0 99.0 (efficiency target 0 a - d).
Proof.
  intro Hd. rewrite !efficiency_clamp.
  pose proof (Qabs_nonneg (target - inject_Z a)) as Hdev.
  generalize dependent (Qabs (target - inject_Z a)). intros dev Hdev.
  split_clamp; lra.
Qed.

(** In exact arithmetic: for every angle [a], latitude [L] and condition label [c] whose
    loss in the table is [loss], the efficiency under that loss equals the
    efficiency under loss 0 minus [loss], clamped to the interval from 0
    to 99. *)
Theorem efficiency_loss_shift (a : Z) (L : Q) (c : string) (loss : Z) :
  lookup DEFECT_LOSS c = Some loss ->
  efficiency (target_optimal L) (inject_Z loss) a
  == clamp 0 99.0 (efficiency (target_optimal L) 0 a - inject_Z loss).
Proof.
  intro Hc. apply efficiency_shift.
  apply table_nonneg in Hc.
  replace 0 with (inject_Z 0) by reflexivity.
  rewrite <- Zle_Qle. exact Hc.
Qed.

Lemma efficiency_loss_shift_witness :
  lookup DEFECT_LOSS "dusty" = Some 20%Z
  /\ efficiency (target_optimal 28) (inject_Z 20) 10
     == clamp 0 99.0 (efficiency (target_optimal 28) 0 10 - inject_Z 20).
Proof.
  split; [reflexivity |].
  apply (efficiency_loss_shift 10 28 "dusty" 20). reflexivity.
Defined.

Lemma efficiency_mono_deviation (t1 t2 d : Q) (a1 a2 : Z) :
  Qabs (t1 - inject_Z a1) <= Qabs (t2 - inject_Z a2) ->
  efficiency t2 d a2 <= efficiency t1 d a1.
Proof.
  intro H. rewrite !efficiency_clamp. apply clamp_mono. lra.
Qed.

Lemma efficiency_mono_loss (t d1 d2 : Q) (a : Z) :
  d1 <= d2 -> efficiency t d2 a <= efficiency t d1 a.
Proof.
  intro H. rewrite !efficiency_clamp. apply clamp_mono. lra.
Qed.

Lemma efficiency_proper (t1 t2 d1 d2 : Q) (a : Z) :
  t1 == t2 -> d1 == d2 -> efficiency t1 d1 a == efficiency t2 d2 a.
Proof.
  intros Ht Hd. rewrite !efficiency_clamp. apply clamp_eq.
  rewrite Ht, Hd. reflexivity.
Qed.

Lemma efficiency_clean_le_98 (t : Q) (a : Z) : efficiency t 0 a <= 98.
Proof.
  rewrite efficiency_clamp.
  pose proof (Qabs_nonneg (t - inject_Z a)) as Hdev.
  generalize dependent (Qabs (t - inject_Z a)). intros dev Hdev.
  split_clamp; lra.
Qed.

(** C7: the efficiency is a function of its inputs (equal inputs give
    equal values), it does not increase when the deviation
    [|target - angle|] grows nor when the condition loss grows, it never
    exceeds 99.0, and with condition loss 0 it never exceeds 98.0, for
    every latitude and angle. *)
Theorem efficiency_monotone_bounded :
  (forall (t1 t2 d1 d2 : Q) (a : Z),
      t1 == t2 -> d1 == d2 -> efficiency t1 d1 a == efficiency t2 d2 a)
  /\ (forall (L1 L2 d : Q) (a1 a2 : Z),
         Qabs (target_optimal L1 - inject_Z a1)
         <= Qabs (target_optimal L2 - inject_Z a2) ->
         efficiency (target_optimal L2) d a2
         <= efficiency (target_optimal L1) d a1)
  /\ (forall (L d1 d2 : Q) (a : Z),
         d1 <= d2 ->
         efficiency (target_optimal L) d2 a
         <= efficiency (target_optimal L) d1 a)
  /\ (forall (L d : Q) (a : Z), efficiency (target_optimal L) d a <= 99.0)
  /\ (forall (L : Q) (a : Z), efficiency (target_optimal L) 0 a <= 98.0).
Proof.
  split; [exact efficiency_proper |].
  split; [intros; now apply efficiency_mono_deviation |].
  split; [intros; now apply efficiency_mono_loss |].
  split.
  - intros L d a. pose proof (efficiency_bounds (target_optimal L) d a). lra.
  - intros L a. pose proof (efficiency_clean_le_98 (target_optimal L) a). lra.
Qed.

Lemma efficiency_monotone_bounded_witness :
  (28 == 28 /\ 30 == 30 /\
   efficiency 28 30 24 == efficiency 28 30 24)
  /\ (Qabs (target_optimal 28 - inject_Z 24)
      <= Qabs (target_optimal 28 - inject_Z 20)
      /\ efficiency (target_optimal 28) 30 20
         <= efficiency (target_optimal 28) 30 24)
  /\ (20 <= 30
      /\ efficiency (target_optimal 28) 30 24
         <= efficiency (target_optimal 28) 20 24).
Proof.
  destruct efficiency_monotone_bounded as (Hp & Hdev & Hloss & _).
  split; [| split].
  - split; [reflexivity |]. split; [reflexivity |].
    apply Hp; reflexivity.
  - split; [vm_compute; discriminate |].
    apply (Hdev 28 28 30 24%Z 20%Z). vm_compute. discriminate.
  - split; [lra |]. apply (Hloss 28 20 30 24%Z). lra.
Defined.

(** ** The angle search *)

Section SearchFacts.

Variables target d : Q.

Lemma search_step_cases (best : Z * Q) (x : Z) :
  (snd best < efficiency target d x
   /\ search_step target d best x = (x, efficiency target d x))
  \/ (efficiency target d x <= snd best
      /\ search_step target d best x = best).
Proof.
  unfold search_step.
  destruct (gt_cases (efficiency target d x) (snd best)) as [[-> H] | [-> H]];
    auto.
Qed.

(** What the loop leaves after a list of candidates: either nothing beat
    the initial pair, or the result is a candidate of the list that is
    strictly better than everything before it and at least as good as
    everything after it. *)
Lemma fold_search_spec (l : list Z) : forall best : Z * Q,
  let r := fold_left (search_step target d) l best in
  (r = best /\ Forall (fun x => efficiency target d x <= snd best) l)
  \/ (exists earlier later,
         l = earlier ++ fst r :: later
         /\ snd r = efficiency target d (fst r)
         /\ snd best < snd r
         /\ Forall (fun x => efficiency target d x < snd r) earlier
         /\ Forall (fun x => efficiency target d x <= snd r) later).
Proof.
  induction l as [| x l IH]; intros best; cbn zeta.
  - left. split; [reflexivity | constructor].
  - cbn [fold_left].
    destruct (search_step_cases best x) as [[Hlt ->] | [Hle ->]].
    + destruct (IH (x, efficiency target d x))
        as [[-> Hall] | (pre & post & Hl & He & Hb & Hpre & Hpost)];
        cbn [fst snd] in *; right.
      * exists [], l. cbn [fst snd app].
        split; [reflexivity |]. split; [reflexivity |].
        split; [exact Hlt |]. split; [constructor | exact Hall].
      * exists (x :: pre), post.
        split; [cbn [app]; f_equal; exact Hl |].
        split; [exact He |]. split; [lra |].
        split; [constructor; [exact Hb | exact Hpre] | exact Hpost].
    + destruct (IH best)
        as [[-> Hall] | (pre & post & Hl & He & Hb & Hpre & Hpost)].
      * left. split; [reflexivity |]. constructor; auto.
      * right. exists (x :: pre), post.
        split; [cbn [app]; f_equal; exact Hl |].
        split; [exact He |]. split; [exact Hb |].
        split; [constructor; [lra | exact Hpre] | exact Hpost].
Qed.

End SearchFacts.

Lemma sorted_split (earlier later : list Z) (a : Z) :
  StronglySorted Z.lt (earlier ++ a :: later) ->
  Forall (fun x => (x < a)%Z) earlier /\ Forall (fun x => (a < x)%Z) later.
Proof.
  induction earlier as [| y earlier IH]; cbn; intro H.
  - apply StronglySorted_inv in H. destruct H as [_ H]. split; [constructor | exact H].
  - apply StronglySorted_inv in H. destruct H as [Hs Hy].
    destruct (IH Hs) as [He Hl]. split; [| exact Hl].
    constructor; [| exact He].
    rewrite Forall_forall in Hy. apply Hy. apply in_elt.
Qed.

Lemma seq_shift_sorted (lo : Z) (n s : nat) :
  StronglySorted Z.lt (map (fun i => (lo + Z.of_nat i)%Z) (seq s n)).
Proof.
  revert s. induction n as [| n IH]; intro s; cbn.
  - constructor.
  - constructor; [apply IH |].
    apply Forall_forall. intros x Hx.
    apply in_map_iff in Hx. destruct Hx as (i & <- & Hi).
    apply in_seq in Hi. lia.
Qed.

Lemma range_sorted (lo hi : Z) : StronglySorted Z.lt (PyNum.range lo hi).
Proof. apply seq_shift_sorted. Qed.

(** The result of the search, in full: the angle is a candidate, the
    efficiency is the one of that angle, no candidate does better and no
    smaller candidate does as well. *)
Lemma search_spec (L d : Q) :
  let a := fst (search L d) in
  let e := snd (search L d) in
  (0 <= a <= 90)%Z
  /\ e = efficiency (target_optimal L) d a
  /\ (forall b, (0 <= b <= 90)%Z -> efficiency (target_optimal L) d b <= e)
  /\ (forall b, (0 <= b < a)%Z -> efficiency (target_optimal L) d b < e).
Proof.
  cbn zeta. unfold search.
  destruct (fold_search_spec (target_optimal L) d (PyNum.range 0 91) (0%Z, -1))
    as [[_ Hall] | (pre & post & Hl & He & _ & Hpre & Hpost)].
  - exfalso. rewrite Forall_forall in Hall.
    assert (H0 : In 0%Z (PyNum.range 0 91)) by (apply range_In; lia).
    specialize (Hall _ H0). cbn [snd] in Hall.
    pose proof (efficiency_bounds (target_optimal L) d 0). lra.
  - set (r := fold_left _ _ _) in *.
    assert (Hin : In (fst r) (PyNum.range 0 91))
      by (rewrite Hl; apply in_elt).
    apply range_In in Hin.
    pose proof (range_sorted 0 91) as Hs. rewrite Hl in Hs.
    apply sorted_split in Hs. destruct Hs as [Hbefore Hafter].
    rewrite Forall_forall in Hpre, Hpost, Hbefore, Hafter.
    assert (Hcases : forall b, (0 <= b <= 90)%Z ->
                               In b pre \/ b = fst r \/ In b post).
    { intros b Hb.
      assert (Hb' : In b (PyNum.range 0 91)) by (apply range_In; lia).
      rewrite Hl in Hb'. apply in_app_or in Hb'. cbn in Hb'.
      intuition auto. }
    split; [lia |]. split; [exact He |]. split.
    + intros b Hb. destruct (Hcases b Hb) as [H | [-> | H]].
      * apply Qlt_le_weak. auto.
      * rewrite He. apply Qle_refl.
      * auto.
    + intros b Hb. destruct (Hcases b) as [H | [-> | H]]; [lia | auto | lia |].
      apply Hafter in H. lia.
Qed.

(** C2: for every latitude [L] and condition loss [d], the angle returned
    by the search is the smallest angle from 0 to 90 whose clamped
    efficiency is the maximum: every candidate is at most as efficient, and
    every candidate tied with the result is at least as large as the
    returned angle. *)
Theorem search_smallest_argmax (L d : Q) :
  let a := fst (search L d) in
  let e := snd (search L d) in
  (0 <= a <= 90)%Z
  /\ e = efficiency (target_optimal L) d a
  /\ (forall b, (0 <= b <= 90)%Z -> efficiency (target_optimal L) d b <= e)
  /\ (forall b, (0 <= b <= 90)%Z ->
                efficiency (target_optimal L) d b == e -> (a <= b)%Z).
Proof.
  destruct (search_spec L d) as (Ha & He & Hmax & Hstrict). cbn zeta in *.
  repeat split; try lia; auto.
  intros b Hb Heq.
  destruct (Z_lt_le_dec b (fst (search L d))) as [Hlt | Hge]; [| exact Hge].
  assert (H : efficiency (target_optimal L) d b < snd (search L d))
    by (apply Hstrict; lia).
  lra.
Qed.

(** Latitude 10/19 puts the target at 3.5: angles 3 and 4 tie, 3 wins. *)
Lemma search_smallest_argmax_witness :
  fst (search (10 # 19) 0) = 3%Z
  /\ (0 <= 4 <= 90)%Z
  /\ efficiency (target_optimal (10 # 19)) 0 4 == snd (search (10 # 19) 0)
  /\ (fst (search (10 # 19) 0) <= 4)%Z.
Proof.
  split; [vm_compute; reflexivity |].
  split; [lia |].
  split; [vm_compute; reflexivity |].
  destruct (search_smallest_argmax (10 # 19) 0) as (_ & _ & _ & Htie).
  apply Htie; [lia | vm_compute; reflexivity].
Defined.

(** ** Strings *)

Section StringFacts.

#[local] Open Scope string_scope.

Lemma prefix_spec (n h : string) :
  prefix n h = true <-> exists after, h = n ++ after.
Proof.
  revert h. induction n as [| c n IH]; intro h.
  - split; [intros _; now exists h | intros _; destruct h; reflexivity].
  - destruct h as [| c' h]; cbn.
    + split; [discriminate | intros [x Hx]; discriminate].
    + destruct (ascii_dec c c') as [<- | Hne].
      * rewrite IH. split; intros [after H]; exists after.
        -- now rewrite H.
        -- now inversion H.
      * split; [discriminate |]. intros [after H]. inversion H. congruence.
Qed.

Lemma app_empty_inv (x y : string) : "" = x ++ y -> x = "" /\ y = "".
Proof. destruct x; cbn; [auto | discriminate]. Qed.

(** The [in] of the source is the occurrence of the needle in the
    haystack. *)
Lemma contains_spec (n h : string) :
  PyStr.contains n h = true <-> PyStr.occurs_in n h.
Proof.
  unfold PyStr.occurs_in. induction h as [| c h IH].
  - cbn [PyStr.contains]. rewrite orb_false_r, prefix_spec. split.
    + intros [after H]. now exists "", after.
    + intros (before & after & H).
      apply app_empty_inv in H. destruct H as [_ H]. symmetry in H.
      apply app_empty_inv in H. destruct H as [-> ->]. now exists "".
  - cbn [PyStr.contains]. rewrite orb_true_iff, prefix_spec, IH. split.
    + intros [[after H] | (before & after & H)].
      * now exists "", after.
      * exists (String c before), after. cbn. now rewrite H.
    + intros (before & after & H). destruct before as [| c' before].
      * left. now exists after.
      * right. cbn in H. inversion H. now exists before, after.
Qed.

Lemma isspace_lower_char (c : ascii) :
  PyStr.isspace (PyStr.lower_char c) = PyStr.isspace c.
Proof. destruct c as [[] [] [] [] [] [] [] []]; reflexivity. Qed.

Lemma lower_lstrip (s : string) :
  PyStr.lower (PyStr.lstrip s) = PyStr.lstrip (PyStr.lower s).
Proof.
  induction s as [| c s IH]; cbn; [reflexivity |].
  rewrite isspace_lower_char. destruct (PyStr.isspace c); [exact IH | reflexivity].
Qed.

Lemma lower_rstrip (s : string) :
  PyStr.lower (PyStr.rstrip s) = PyStr.rstrip (PyStr.lower s).
Proof.
  induction s as [| c s IH]; cbn; [reflexivity |].
  rewrite <- IH, isspace_lower_char.
  destruct (PyStr.rstrip s); cbn; [| reflexivity].
  destruct (PyStr.isspace c); reflexivity.
Qed.

(** Lower-casing and trimming commute: the order in which the source
    applies them does not show. *)
Lemma lower_strip (s : string) :
  PyStr.lower (PyStr.strip s) = PyStr.strip (PyStr.lower s).
Proof. unfold PyStr.strip. now rewrite lower_rstrip, lower_lstrip. Qed.

Lemma first_key_in_some (label : string) (ks : list string) (k : string) :
  first_key_in label ks = Some k -> first_occurring label ks k.
Proof.
  unfold first_occurring. induction ks as [| k' ks IH]; cbn; [discriminate |].
  destruct (PyStr.contains k' label) eqn:E.
  - intro H. inversion H; subst k'. exists [], ks.
    split; [reflexivity |]. split; [now apply contains_spec | constructor].
  - intro H. destruct (IH H) as (pre & post & -> & Hocc & Hpre).
    exists (k' :: pre), post. split; [reflexivity |]. split; [exact Hocc |].
    constructor; [| exact Hpre].
    intro Hc. apply contains_spec in Hc. congruence.
Qed.

Lemma first_key_in_none (label : string) (ks : list string) :
  first_key_in label ks = None ->
  Forall (fun k => ~ PyStr.occurs_in k label) ks.
Proof.
  induction ks as [| k' ks IH]; cbn; [constructor |].
  destruct (PyStr.contains k' label) eqn:E; [discriminate |].
  intro H. constructor; [| now apply IH].
  intro Hc. apply contains_spec in Hc. congruence.
Qed.

Lemma first_key_in_none_iff (label : string) (ks : list string) :
  Forall (fun k => ~ PyStr.occurs_in k label) ks ->
  first_key_in label ks = None.
Proof.
  induction 1 as [| k ks Hk _ IH]; cbn; [reflexivity |].
  destruct (PyStr.contains k label) eqn:E; [| exact IH].
  apply contains_spec in E. contradiction.
Qed.

Lemma first_occurring_In (label : string) (ks : list string) (k : string) :
  first_occurring label ks k -> In k ks.
Proof. intros (pre & post & -> & _). apply in_elt. Qed.

(** What [classify_image] makes of a response text: a key of the table
    that is the first to occur in the processed text, or [clean] when
    none occurs. *)
Lemma label_of_text_cases (raw : string) :
  let label := PyStr.lower (PyStr.strip raw) in
  first_occurring label (keys DEFECT_LOSS) (label_of_text (Some raw))
  \/ (Forall (fun k => ~ PyStr.occurs_in k label) (keys DEFECT_LOSS)
      /\ label_of_text (Some raw) = "clean").
Proof.
  cbn zeta. destruct raw as [| c raw].
  - right. split; [| reflexivity]. now apply first_key_in_none.
  - unfold label_of_text. cbn [PyStr.truthy negb].
    destruct (first_key_in _ _) eqn:E.
    + left. now apply first_key_in_some.
    + right. split; [now apply first_key_in_none | reflexivity].
Qed.

Lemma label_of_text_key (text : option string) :
  In (label_of_text text) (keys DEFECT_LOSS).
Proof.
  destruct text as [raw |]; [| cbn; auto].
  destruct (label_of_text_cases raw) as [H | [_ ->]].
  - eapply first_occurring_In, H.
  - cbn; auto.
Qed.

Lemma lookup_keys (d : list (string * Z)) (k : string) :
  In k (keys d) -> exists v, lookup d k = Some v.
Proof.
  induction d as [| [k' v] d IH]; cbn; [contradiction |].
  destruct (String.eqb_spec k' k) as [-> | Hne].
  - intros _. now exists v.
  - intros [H | H]; [contradiction | auto].
Qed.

End StringFacts.

(** ** Rounding *)

Lemma round_half_even_bounds (x : Q) (lo hi : Z) :
  inject_Z lo <= x <= inject_Z hi ->
  (lo <= PyNum.round_half_even x <= hi)%Z.
Proof.
  intros [Hlo Hhi]. unfold PyNum.round_half_even.
  pose proof (Qfloor_le x) as Hfl.
  assert (Hn : (lo <= Qfloor x)%Z).
  { rewrite <- (Qfloor_Z lo). now apply Qfloor_resp_le. }
  assert (Hup : inject_Z (Qfloor x) < x -> (Qfloor x + 1 <= hi)%Z).
  { intro H. assert (H' : inject_Z (Qfloor x) < inject_Z hi) by lra.
    rewrite <- Zlt_Qlt in H'. lia. }
  assert (Hm : (Qfloor x <= hi)%Z).
  { rewrite Zle_Qle. lra. }
  destruct (Qcompare (x - inject_Z (Qfloor x)) (1 # 2)) eqn:E.
  - apply Qeq_alt in E. destruct (Z.even (Qfloor x)); [lia |].
    split; [lia |]. apply Hup. lra.
  - lia.
  - apply Qgt_alt in E. split; [lia |]. apply Hup. lra.
Qed.

Lemma round2_bounds (x : Q) : 0 <= x <= 99 -> 0 <= PyNum.round2 x <= 99.
Proof.
  intros [H0 H99]. unfold PyNum.round2. rewrite Qred_correct.
  destruct (round_half_even_bounds (x * 100) 0 9900) as [Hlo Hhi].
  { change (inject_Z 0) with 0. change (inject_Z 9900) with 9900. lra. }
  rewrite Zle_Qle in Hlo, Hhi.
  change (inject_Z 0) with 0 in Hlo. change (inject_Z 9900) with 9900 in Hhi.
  generalize dependent (inject_Z (PyNum.round_half_even (x * 100))).
  intros r Hlo Hhi. unfold Qdiv. change (/ 100) with (1 # 100). lra.
Qed.

(** ** The classifier *)

Section ClassifierFacts.

Context {Image : Type}.
Variable generate_content : list Image -> Image -> Upstream.

#[local] Open Scope string_scope.

Lemma classify_image_replied (img : Image) (w : World Image)
      (text : option string) :
  generate_content (requests w) img = Replied text ->
  classify_image generate_content (Some img) w
  = (label_of_text text, mkWorld (requests w ++ [img]) (stdout w)).
Proof.
  intro H. unfold classify_image, bind, call_model. now rewrite H.
Qed.

Lemma classify_image_raised (img : Image) (w : World Image)
      (message : string) :
  generate_content (requests w) img = Raised message ->
  classify_image generate_content (Some img) w
  = ("clean",
     mkWorld (requests w ++ [img])
             (stdout w ++ ["Error during classification: " ++ message])).
Proof.
  intro H. unfold classify_image, bind, call_model. now rewrite H.
Qed.

(** The entry point once the label is known. *)
Lemma compute_best_angle_present (img : Image) (L : Q) (w : World Image) :
  let defect := fst (classify_image generate_content (Some img) w) in
  let r := search L (inject_Z (dict_get DEFECT_LOSS defect 0)) in
  fst (compute_best_angle generate_content (Some img) (Some L) w)
  = (PyStr.str_of_int (fst r) ++ PyStr.degree,
     PyStr.title defect,
     PyNum.round2 (snd r)).
Proof.
  cbn zeta. unfold compute_best_angle, bind.
  destruct (classify_image generate_content (Some img) w) as [defect w'].
  cbn [fst]. destruct (search L _) as [a e]. reflexivity.
Qed.

(** C3: whenever the image is absent or the latitude is absent,
    [compute_best_angle] returns exactly the triple
    ("No input", "N/A", 0), whatever the remote model would answer, and
    leaves the state as it was: no request has been sent to the
    classifier and nothing was printed. *)
Theorem missing_input_sentinel (image : option Image) (latitude : option Q)
        (w : World Image) :
  image = None \/ latitude = None ->
  compute_best_angle generate_content image latitude w
  = (("No input", "N/A", 0), w).
Proof.
  intros [-> | ->]; [reflexivity |].
  destruct image; reflexivity.
Qed.

(** C4: when the remote model answers with the text [raw], the label
    returned is the first key of the table, in the table's order, that
    occurs in the lower-cased and trimmed text, and it is [clean] when no
    key occurs there (an empty text included); the two orders of
    lower-casing and trimming give the same processed text.  The text
    "Dusty Panel" gives [dusty], whose loss is 20. *)
Theorem classify_image_first_key (img : Image) (w : World Image)
        (raw : string) :
  generate_content (requests w) img = Replied (Some raw) ->
  let label := PyStr.lower (PyStr.strip raw) in
  let result := fst (classify_image generate_content (Some img) w) in
  label = PyStr.strip (PyStr.lower raw)
  /\ (first_occurring label (keys DEFECT_LOSS) result
      \/ (Forall (fun k => ~ PyStr.occurs_in k label) (keys DEFECT_LOSS)
          /\ result = "clean"))
  /\ (raw = "Dusty Panel" ->
      result = "dusty" /\ dict_get DEFECT_LOSS result 0 = 20%Z).
Proof.
  intro H. cbn zeta. rewrite (classify_image_replied _ _ _ H). cbn [fst].
  split; [apply lower_strip |]. split; [apply label_of_text_cases |].
  intros ->. split; reflexivity.
Qed.

Lemma classify_image_key (image : option Image) (w : World Image) :
  In (fst (classify_image generate_content image w)) (keys DEFECT_LOSS).
Proof.
  destruct image as [img |]; [| cbn; auto].
  destruct (generate_content (requests w) img) as [message | text] eqn:E.
  - rewrite (classify_image_raised _ _ _ E). cbn; auto.
  - rewrite (classify_image_replied _ _ _ E). apply label_of_text_key.
Qed.

(** C10: whatever the image and whatever the remote model does,
    [classify_image] returns a key of the table, so the lookup of
    [compute_best_angle] finds an entry and its result does not depend on
    the default.  The label is [clean] for an absent image, a raised
    exception and an absent text; for a response text it is the first key,
    in the table's order, that occurs in the processed text, and [clean]
    when no key occurs there. *)
Theorem classify_image_returns_key (image : option Image)
        (w : World Image) :
  let defect := fst (classify_image generate_content image w) in
  In defect (keys DEFECT_LOSS)
  /\ (exists loss,
         lookup DEFECT_LOSS defect = Some loss
         /\ forall default, dict_get DEFECT_LOSS defect default = loss)
  /\ match image with
     | None => defect = "clean"
     | Some img =>
         match generate_content (requests w) img with
         | Raised _ => defect = "clean"
         | Replied None => defect = "clean"
         | Replied (Some raw) =>
             let label := PyStr.lower (PyStr.strip raw) in
             first_occurring label (keys DEFECT_LOSS) defect
             \/ (Forall (fun k => ~ PyStr.occurs_in k label)
                        (keys DEFECT_LOSS)
                 /\ defect = "clean")
         end
     end.
Proof.
  cbn zeta.
  assert (Hkey : forall k,
             In k (keys DEFECT_LOSS) ->
             exists loss,
               lookup DEFECT_LOSS k = Some loss
               /\ forall default, dict_get DEFECT_LOSS k default = loss).
  { intros k Hk. destruct (lookup_keys _ _ Hk) as [v Hv].
    exists v. split; [exact Hv |]. intro default.
    unfold dict_get. now rewrite Hv. }
  destruct image as [img |].
  - destruct (generate_content (requests w) img) as [message | text] eqn:E.
    + rewrite (classify_image_raised _ _ _ E). cbn [fst].
      split; [cbn; auto |]. split; [apply Hkey; cbn; auto | reflexivity].
    + rewrite (classify_image_replied _ _ _ E). cbn [fst].
      split; [apply label_of_text_key |].
      split; [apply Hkey, label_of_text_key |].
      destruct text as [raw |]; [apply label_of_text_cases | reflexivity].
  - change (fst (classify_image generate_content None w)) with "clean".
    split; [cbn; auto |]. split; [apply Hkey; cbn; auto | reflexivity].
Qed.

(** C5: when the call to the remote model raises, [classify_image]
    catches the exception, prints one diagnostic line and returns
    [clean], whose loss is 0; [compute_best_angle] then returns the
    result of the search under loss 0, the same result as for a response
    in which no key of the table occurs. *)
Theorem classification_failure_degrades (img : Image) (L : Q)
        (w : World Image) (message : string) :
  generate_content (requests w) img = Raised message ->
  classify_image generate_content (Some img) w
  = ("clean",
     mkWorld (requests w ++ [img])
             (stdout w ++ ["Error during classification: " ++ message]))
  /\ dict_get DEFECT_LOSS "clean" 0 = 0%Z
  /\ fst (compute_best_angle generate_content (Some img) (Some L) w)
     = (PyStr.str_of_int (fst (search L 0)) ++ PyStr.degree,
        "Clean",
        PyNum.round2 (snd (search L 0)))
  /\ forall (other : list Image -> Image -> Upstream) (raw : string),
      other (requests w) img = Replied (Some raw) ->
      Forall (fun k => ~ PyStr.occurs_in k (PyStr.lower (PyStr.strip raw)))
             (keys DEFECT_LOSS) ->
      fst (classify_image other (Some img) w) = "clean"
      /\ fst (compute_best_angle other (Some img) (Some L) w)
         = fst (compute_best_angle generate_content (Some img) (Some L) w).
Proof.
  intro H. pose proof (classify_image_raised _ _ _ H) as Hc.
  split; [exact Hc |]. split; [reflexivity |].
  assert (Hmine :
            fst (compute_best_angle generate_content (Some img) (Some L) w)
            = (PyStr.str_of_int (fst (search L 0)) ++ PyStr.degree,
               "Clean",
               PyNum.round2 (snd (search L 0)))).
  { rewrite compute_best_angle_present, Hc. reflexivity. }
  split; [exact Hmine |].
  intros other raw Hother Hnone.
  assert (Hlabel : label_of_text (Some raw) = "clean").
  { unfold label_of_text.
    rewrite (first_key_in_none_iff _ _ Hnone).
    now destruct (negb (PyStr.truthy raw)). }
  assert (Hclean : fst (classify_image other (Some img) w) = "clean").
  { unfold classify_image, bind, call_model. rewrite Hother.
    cbn [fst ret]. exact Hlabel. }
  split; [exact Hclean |].
  rewrite Hmine.
  unfold compute_best_angle, bind.
  destruct (classify_image other (Some img) w) as [defect w'].
  cbn [fst] in Hclean. subst defect.
  change (inject_Z (dict_get DEFECT_LOSS "clean" 0)) with 0.
  destruct (search L 0) as [a e]. reflexivity.
Qed.

End ClassifierFacts.

Lemma missing_input_sentinel_witness :
  ((@None unit = None \/ Some 28 = None)
   /\ compute_best_angle (always_replies "dusty") None (Some 28) idle
      = (("No input", "N/A", 0), idle)%string)
  /\ ((Some tt = None \/ @None Q = None)
      /\ compute_best_angle (always_replies "dusty") (Some tt) None idle
         = (("No input", "N/A", 0), idle)%string).
Proof.
  split; split.
  - left. reflexivity.
  - apply (missing_input_sentinel (always_replies "dusty") None (Some 28) idle).
    left. reflexivity.
  - right. reflexivity.
  - apply (missing_input_sentinel (always_replies "dusty") (Some tt) None idle).
    right. reflexivity.
Defined.

Lemma classify_image_first_key_witness :
  always_replies "Dusty Panel" (requests idle) tt
  = Replied (Some "Dusty Panel"%string)
  /\ fst (classify_image (always_replies "Dusty Panel") (Some tt) idle)
     = "dusty"%string
  /\ dict_get DEFECT_LOSS
              (fst (classify_image (always_replies "Dusty Panel") (Some tt) idle))
              0 = 20%Z.
Proof.
  split; [reflexivity |].
  destruct (classify_image_first_key (always_replies "Dusty Panel") tt idle
                                     "Dusty Panel" eq_refl)
    as (_ & _ & Hdusty).
  exact (Hdusty eq_refl).
Defined.

Lemma classification_failure_degrades_witness :
  always_raises "timeout" (requests idle) tt = Raised "timeout"
  /\ classify_image (always_raises "timeout") (Some tt) idle
     = ("clean"%string,
        mkWorld [tt] ["Error during classification: timeout"%string])
  /\ fst (compute_best_angle (always_raises "timeout") (Some tt) (Some 28) idle)
     = (PyStr.str_of_int 24 ++ PyStr.degree, "Clean", 1957 # 20)%string.
Proof.
  split; [reflexivity |].
  destruct (classification_failure_degrades (always_raises "timeout") tt 28
                                            idle "timeout" eq_refl)
    as (Hc & _ & Hr & _).
  split; [exact Hc |].
  rewrite Hr. vm_compute. reflexivity.
Defined.

(** ** Scenarios and ranges *)

(** C8: for latitude 0 and condition [clean], whose loss is 0, the target
    angle is 3.1, the search selects angle 3 and the efficiency is
    [98 - 0.4 * 0.1 = 97.96], which is also the rounded value returned; the
    search on IEEE doubles selects the same angle and reaches the double
    nearest to 97.96. *)
Theorem latitude_zero_clean_scenario :
  target_optimal 0 == 3.1
  /\ dict_get DEFECT_LOSS "clean" 0 = 0%Z
  /\ fst (search 0 0) = 3%Z
  /\ snd (search 0 0) == 98 - 0.4 * 0.1
  /\ snd (search 0 0) == 97.96
  /\ PyNum.round2 (snd (search 0 0)) == 97.96
  /\ Binary64.search 0 0 = (3%nat, 0x1.87d70a3d70a3dp+6%float)
  /\ forall (Image : Type) (generate_content : list Image -> Image -> Upstream)
            (img : Image) (w : World Image),
      fst (classify_image generate_content (Some img) w) = "clean"%string ->
      fst (compute_best_angle generate_content (Some img) (Some 0) w)
      = (PyStr.str_of_int 3 ++ PyStr.degree, "Clean", 2449 # 25)%string.
Proof.
  split; [vm_compute; reflexivity |]. split; [reflexivity |].
  split; [vm_compute; reflexivity |]. split; [vm_compute; reflexivity |].
  split; [vm_compute; reflexivity |]. split; [vm_compute; reflexivity |].
  split; [vm_compute; reflexivity |].
  intros Image gc img w H.
  rewrite compute_best_angle_present, H. vm_compute. reflexivity.
Qed.

Lemma latitude_zero_clean_scenario_witness :
  fst (classify_image (always_replies "clean") (Some tt) idle) = "clean"%string
  /\ fst (compute_best_angle (always_replies "clean") (Some tt) (Some 0) idle)
     = (PyStr.str_of_int 3 ++ PyStr.degree, "Clean", 2449 # 25)%string.
Proof.
  split; [reflexivity |].
  destruct latitude_zero_clean_scenario as (_ & _ & _ & _ & _ & _ & _ & H).
  apply (H unit (always_replies "clean") tt idle). reflexivity.
Defined.

(** The other scenario of the specification: latitude 28 and [bird drop]
    give angle 24 and 67.85 after rounding, on rationals and on doubles. *)
Example latitude_28_bird_drop_scenario :
  target_optimal 28 == 24.38
  /\ fst (search 28 30) = 24%Z
  /\ snd (search 28 30) == 98 - 30 - 0.4 * 0.38
  /\ PyNum.round2 (snd (search 28 30)) == 67.85
  /\ Binary64.search 28 30 = (24%nat, 0x1.0f645a1cac083p+6%float).
Proof. repeat split; vm_compute; reflexivity. Qed.

(** The tie of the specification on doubles: the double nearest to 10/19
    puts the target at 3.5 exactly, angles 3 and 4 get the same efficiency
    and the search keeps 3. *)
Example binary64_tie_break :
  Binary64.target_optimal 0x1.0d79435e50d79p-1 = 0x1.cp+1%float
  /\ Binary64.efficiency 0x1.cp+1 0 3 = Binary64.efficiency 0x1.cp+1 0 4
  /\ fst (Binary64.search 0x1.0d79435e50d79p-1 0) = 3%nat.
Proof. repeat split; vm_compute; reflexivity. Qed.

(** Latitudes beyond every candidate on doubles, the infinities included:
    every efficiency is clamped to 0 and the first candidate is kept. *)
Example binary64_far_latitudes :
  Binary64.search 0x1p+1000 0 = (0%nat, 0%float)
  /\ Binary64.search PrimFloat.infinity 0 = (0%nat, 0%float)
  /\ Binary64.search PrimFloat.neg_infinity 60 = (0%nat, 0%float).
Proof. repeat split; vm_compute; reflexivity. Qed.

(** A latitude that is not a number, which no real latitude is, makes the
    comparison of [min] fail for every candidate: each gets the cap 99. *)
Example binary64_nan_latitude :
  Binary64.search PrimFloat.nan 0 = (0%nat, 99%float).
Proof. vm_compute. reflexivity. Qed.

(** On exact rationals: for every latitude, however far below 0 or above 90, and every
    condition loss, the search over its 91 candidates yields an angle from
    0 to 90 and an efficiency from 0 to 99, before and after rounding; the
    entry point, given an image and a latitude, returns such an angle and
    such an efficiency whatever the remote model does. *)
Theorem search_total_in_range :
  List.length (PyNum.range 0 91) = 91%nat
  /\ (forall L d : Q,
         (0 <= fst (search L d) <= 90)%Z
         /\ 0 <= snd (search L d) <= 99
         /\ 0 <= PyNum.round2 (snd (search L d)) <= 99)
  /\ (forall (Image : Type)
             (generate_content : list Image -> Image -> Upstream)
             (img : Image) (L : Q) (w : World Image),
         exists (a : Z) (c : string) (v : Q),
           fst (compute_best_angle generate_content (Some img) (Some L) w)
           = ((PyStr.str_of_int a ++ PyStr.degree)%string, PyStr.title c, v)
           /\ (0 <= a <= 90)%Z
           /\ In c (keys DEFECT_LOSS)
           /\ 0 <= v <= 99).
Proof.
  assert (Hsearch : forall L d : Q,
             (0 <= fst (search L d) <= 90)%Z
             /\ 0 <= snd (search L d) <= 99
             /\ 0 <= PyNum.round2 (snd (search L d)) <= 99).
  { intros L d. destruct (search_spec L d) as (Ha & He & _). cbn zeta in *.
    assert (Hb : 0 <= snd (search L d) <= 99)
      by (rewrite He; apply efficiency_bounds).
    split; [exact Ha |]. split; [exact Hb |]. now apply round2_bounds. }
  split; [reflexivity |]. split; [exact Hsearch |].
  intros Image gc img L w.
  set (defect := fst (classify_image gc (Some img) w)).
  set (r := search L (inject_Z (dict_get DEFECT_LOSS defect 0))).
  exists (fst r), defect, (PyNum.round2 (snd r)).
  split; [apply compute_best_angle_present |].
  destruct (Hsearch L (inject_Z (dict_get DEFECT_LOSS defect 0)))
    as (Ha & _ & Hv).
  split; [exact Ha |]. split; [| exact Hv].
  apply classify_image_key.
Qed.

(** * Further properties of the search *)

Lemma Qabs_cases (x : Q) :
  (0 <= x /\ Qabs x == x) \/ (x < 0 /\ Qabs x == - x).
Proof.
  destruct (Qlt_le_dec x 0) as [H | H].
  - right. split; [exact H |]. apply Qabs_neg. lra.
  - left. split; [exact H |]. now apply Qabs_pos.
Qed.

(** Case analysis on the absolute values of the goal and of the context. *)
Ltac split_abs :=
  repeat match goal with
    | |- context [Qabs ?x] =>
        let E := fresh "Eabs" in
        let H := fresh "Habs" in
        destruct (Qabs_cases x) as [[H E] | [H E]];
        generalize dependent (Qabs x); intros
    | _ : context [Qabs ?x] |- _ =>
        let E := fresh "Eabs" in
        let H := fresh "Habs" in
        destruct (Qabs_cases x) as [[H E] | [H E]];
        generalize dependent (Qabs x); intros
    end.

(** Without clamping the efficiency would be this. *)
Lemma efficiency_above_raw (t d : Q) (b : Z) :
  0 <= d ->
  98 - d - 0.4 * Qabs (t - inject_Z b) <= efficiency t d b.
Proof.
  intro Hd. rewrite efficiency_clamp.
  pose proof (Qabs_nonneg (t - inject_Z b)) as Hdev.
  generalize dependent (Qabs (t - inject_Z b)). intros dev Hdev.
  split_clamp; lra.
Qed.

Lemma efficiency_positive_raw (t d : Q) (a : Z) :
  0 <= d ->
  0 < efficiency t d a ->
  efficiency t d a == 98 - d - 0.4 * Qabs (t - inject_Z a).
Proof.
  intros Hd. rewrite efficiency_clamp.
  pose proof (Qabs_nonneg (t - inject_Z a)) as Hdev.
  generalize dependent (Qabs (t - inject_Z a)). intros dev Hdev.
  split_clamp; lra.
Qed.

(** While the best efficiency is positive, the angle found is the smallest
    of the candidates nearest to the target. *)
Lemma search_nearest (L d : Q) :
  0 <= d ->
  0 < snd (search L d) ->
  let t := target_optimal L in
  let a := fst (search L d) in
  (0 <= a <= 90)%Z
  /\ snd (search L d) == 98 - d - 0.4 * Qabs (t - inject_Z a)
  /\ (forall b, (0 <= b <= 90)%Z ->
                Qabs (t - inject_Z a) <= Qabs (t - inject_Z b))
  /\ (forall b, (0 <= b < a)%Z ->
                Qabs (t - inject_Z a) < Qabs (t - inject_Z b)).
Proof.
  intros Hd Hpos. cbn zeta.
  destruct (search_spec L d) as (Ha & He & Hmax & Hstrict). cbn zeta in *.
  assert (Hraw : snd (search L d)
                 == 98 - d
                    - 0.4 * Qabs (target_optimal L
                                  - inject_Z (fst (search L d)))).
  { rewrite He at 1. apply efficiency_positive_raw; [exact Hd |].
    rewrite <- He. exact Hpos. }
  split; [exact Ha |]. split; [exact Hraw |]. split.
  - intros b Hb. specialize (Hmax b Hb).
    pose proof (efficiency_above_raw (target_optimal L) d b Hd). lra.
  - intros b Hb. specialize (Hstrict b Hb).
    pose proof (efficiency_above_raw (target_optimal L) d b Hd). lra.
Qed.

(** Two angles that are both the smallest nearest candidate of targets in
    ascending order are in ascending order. *)
Lemma smallest_nearest_mono (t1 t2 : Q) (a1 a2 : Z) :
  t1 <= t2 ->
  (forall b, (0 <= b < a1)%Z ->
             Qabs (t1 - inject_Z a1) < Qabs (t1 - inject_Z b)) ->
  (forall b, (0 <= b <= 90)%Z ->
             Qabs (t2 - inject_Z a2) <= Qabs (t2 - inject_Z b)) ->
  (0 <= a1 <= 90)%Z -> (0 <= a2 <= 90)%Z ->
  (a1 <= a2)%Z.
Proof.
  intros Ht Hs1 Hn2 Ha1 Ha2.
  destruct (Z_lt_le_dec a2 a1) as [Hlt | Hge]; [exfalso | exact Hge].
  assert (H1 : Qabs (t1 - inject_Z a1) < Qabs (t1 - inject_Z a2))
    by (apply Hs1; lia).
  assert (H2 : Qabs (t2 - inject_Z a2) <= Qabs (t2 - inject_Z a1))
    by (apply Hn2; lia).
  assert (Hq : inject_Z a2 < inject_Z a1) by (rewrite <- Zlt_Qlt; exact Hlt).
  clear Hs1 Hn2.
  generalize dependent (inject_Z a1). generalize dependent (inject_Z a2).
  intros q2 q1 H1 H2 Hq.
  split_abs; lra.
Qed.

Lemma search_loss_shift (L d : Q) :
  0 <= d ->
  0 < snd (search L d) ->
  fst (search L d) = fst (search L 0)
  /\ snd (search L d) == snd (search L 0) - d.
Proof.
  intros Hd Hpos.
  destruct (search_nearest L d Hd Hpos) as (Ha & He & Hn & Hs).
  cbn zeta in *.
  assert (Hpos0 : 0 < snd (search L 0)).
  { destruct (search_spec L 0) as (_ & _ & Hmax & _). cbn zeta in *.
    specialize (Hmax _ Ha).
    pose proof (efficiency_above_raw (target_optimal L) 0
                                     (fst (search L d)) (Qle_refl 0)).
    lra. }
  destruct (search_nearest L 0 (Qle_refl 0) Hpos0) as (Ha0 & He0 & Hn0 & Hs0).
  cbn zeta in *.
  assert (Hsame : fst (search L d) = fst (search L 0)).
  { apply Z.le_antisymm.
    - apply (smallest_nearest_mono (target_optimal L) (target_optimal L));
        auto. apply Qle_refl.
    - apply (smallest_nearest_mono (target_optimal L) (target_optimal L));
        auto. apply Qle_refl. }
  split; [exact Hsame |].
  rewrite He, He0, Hsame. lra.
Qed.

(** X4: when the target lies so far outside the candidates that every
    efficiency is clamped to 0, on the high side as on the low side, the
    search keeps its first candidate: it returns angle 0 with efficiency
    0, not the candidate nearest to the target. *)
Theorem all_clamped_returns_angle_zero (L d : Q) :
  98 - d <= 0.4 * (target_optimal L - 90)
  \/ 98 - d <= 0.4 * (0 - target_optimal L) ->
  fst (search L d) = 0%Z /\ snd (search L d) == 0.
Proof.
  intro Hfar.
  assert (Hzero : forall b, (0 <= b <= 90)%Z ->
                            efficiency (target_optimal L) d b == 0).
  { intros b Hb. rewrite efficiency_clamp.
    assert (Hb0 : 0 <= inject_Z b)
      by (change 0 with (inject_Z 0); rewrite <- Zle_Qle; lia).
    assert (Hb90 : inject_Z b <= 90)
      by (change 90 with (inject_Z 90); rewrite <- Zle_Qle; lia).
    generalize dependent (inject_Z b). intros q Hq0 Hq90.
    generalize dependent (target_optimal L). intros t Hfar.
    split_clamp; split_abs; lra. }
  destruct (search_spec L d) as (Ha & He & _ & Hstrict). cbn zeta in *.
  assert (Hsnd : snd (search L d) == 0) by (rewrite He; now apply Hzero).
  split; [| exact Hsnd].
  destruct (Z.eq_dec (fst (search L d)) 0) as [H0 | Hne]; [exact H0 |].
  exfalso.
  assert (Hlt : efficiency (target_optimal L) d 0 < snd (search L d))
    by (apply Hstrict; lia).
  rewrite (Hzero 0%Z) in Hlt by lia. lra.
Qed.

Lemma all_clamped_returns_angle_zero_witness :
  (98 - 0 <= 0.4 * (target_optimal 1000 - 90)
   \/ 98 - 0 <= 0.4 * (0 - target_optimal 1000))
  /\ fst (search 1000 0) = 0%Z
  /\ snd (search 1000 0) == 0
  /\ Qabs (target_optimal 1000 - inject_Z 90)
     < Qabs (target_optimal 1000 - inject_Z 0).
Proof.
  assert (H : 98 - 0 <= 0.4 * (target_optimal 1000 - 90)
              \/ 98 - 0 <= 0.4 * (0 - target_optimal 1000))
    by (left; vm_compute; discriminate).
  split; [exact H |].
  destruct (all_clamped_returns_angle_zero 1000 0 H) as [Ha He].
  split; [exact Ha |]. split; [exact He |]. vm_compute. reflexivity.
Defined.

Lemma near_candidate (t : Q) :
  0 <= t <= 90 ->
  exists b : Z, (0 <= b <= 90)%Z /\ Qabs (t - inject_Z b) <= 1 # 2.
Proof.
  intros [H0 H90]. exists (Qfloor (t + (1 # 2))).
  pose proof (Qfloor_le (t + (1 # 2))) as Hle.
  pose proof (Qlt_floor (t + (1 # 2))) as Hlt.
  rewrite inject_Z_plus in Hlt. change (inject_Z 1) with 1 in Hlt.
  assert (Hlo : (0 <= Qfloor (t + (1 # 2)))%Z).
  { rewrite <- (Qfloor_Z 0). apply Qfloor_resp_le.
    change (inject_Z 0) with 0. lra. }
  assert (Hhi : (Qfloor (t + (1 # 2)) < 91)%Z).
  { rewrite Zlt_Qlt. change (inject_Z 91) with 91. lra. }
  split; [lia |].
  generalize dependent (inject_Z (Qfloor (t + (1 # 2)))). intros q Hle Hlt.
  split_abs; lra.
Qed.

(** A target among the candidates keeps the best efficiency within 0.2 of
    the unclamped maximum. *)
Lemma search_target_in_range (L d : Q) :
  0 <= target_optimal L <= 90 ->
  0 <= d -> d < 97.8 ->
  0 < snd (search L d)
  /\ 97.8 - d <= snd (search L d) <= 98 - d
  /\ Qabs (target_optimal L - inject_Z (fst (search L d))) <= 1 # 2.
Proof.
  intros Ht Hd Hd'.
  destruct (near_candidate _ Ht) as (b & Hb & Hnear).
  destruct (search_spec L d) as (_ & _ & Hmax & _). cbn zeta in *.
  specialize (Hmax b Hb).
  pose proof (efficiency_above_raw (target_optimal L) d b Hd) as Hraw.
  assert (Hpos : 0 < snd (search L d)) by lra.
  destruct (search_nearest L d Hd Hpos) as (_ & He & Hn & _). cbn zeta in *.
  specialize (Hn b Hb).
  pose proof (Qabs_nonneg (target_optimal L - inject_Z (fst (search L d)))).
  split; [exact Hpos |]. split; [split; lra | lra].
Qed.

Lemma table_loss_bounds (c : string) (loss : Z) :
  lookup DEFECT_LOSS c = Some loss -> 0 <= inject_Z loss <= 60.
Proof.
  intro H. apply table_values in H. cbn in H.
  repeat (destruct H as [<- | H]; [split; vm_compute; discriminate |]).
  contradiction.
Qed.

Lemma integer_latitudes_clean (n : Z) :
  (0 <= n <= 90)%Z ->
  (fst (search (inject_Z n) 0) = n <-> (11 <= n <= 14)%Z).
Proof.
  intro Hn.
  assert (Hall : forallb
                   (fun n => Bool.eqb (fst (search (inject_Z n) 0) =? n)%Z
                                      ((11 <=? n)%Z && (n <=? 14)%Z))
                   (PyNum.range 0 91) = true)
    by (vm_compute; reflexivity).
  rewrite forallb_forall in Hall.
  assert (Hin : In n (PyNum.range 0 91)) by (apply range_In; lia).
  specialize (Hall n Hin). apply eqb_prop in Hall.
  rewrite <- Z.eqb_eq, Hall, andb_true_iff, !Z.leb_le. reflexivity.
Qed.

(** X6: for a whole-number latitude from 0 to 90 and any label of the
    table, the recommended angle equals the latitude exactly for the
    latitudes 11, 12, 13 and 14, and differs from it for all others. *)
Theorem angle_equals_integer_latitude (n : Z) (c : string) (loss : Z) :
  (0 <= n <= 90)%Z ->
  lookup DEFECT_LOSS c = Some loss ->
  (fst (search (inject_Z n) (inject_Z loss)) = n <-> (11 <= n <= 14)%Z).
Proof.
  intros Hn Hc.
  pose proof (table_loss_bounds c loss Hc) as Hloss.
  assert (Hq : 0 <= inject_Z n <= 90).
  { change 0 with (inject_Z 0). change 90 with (inject_Z 90).
    rewrite <- !Zle_Qle. exact Hn. }
  assert (Ht : 0 <= target_optimal (inject_Z n) <= 90)
    by (unfold target_optimal; lra).
  destruct (search_target_in_range (inject_Z n) (inject_Z loss))
    as (Hpos & _); try lra.
  destruct (search_loss_shift (inject_Z n) (inject_Z loss)) as [-> _];
    [lra | exact Hpos |].
  apply integer_latitudes_clean. exact Hn.
Qed.

Lemma angle_equals_integer_latitude_witness :
  (0 <= 13 <= 90)%Z
  /\ lookup DEFECT_LOSS "dusty" = Some 20%Z
  /\ fst (search (inject_Z 13) (inject_Z 20)) = 13%Z.
Proof.
  split; [lia |]. split; [reflexivity |].
  apply (angle_equals_integer_latitude 13 "dusty" 20); [lia | reflexivity | lia].
Defined.

(** * Further properties of the entry point *)

Lemma first_key_in_key (k : string) :
  In k (keys DEFECT_LOSS) -> first_key_in k (keys DEFECT_LOSS) = Some k.
Proof.
  cbn. intro H.
  repeat (destruct H as [<- | H]; [vm_compute; reflexivity |]).
  contradiction.
Qed.

Lemma lower_strip_title_key (k : string) :
  In k (keys DEFECT_LOSS) -> PyStr.lower (PyStr.strip (PyStr.title k)) = k.
Proof.
  cbn. intro H.
  repeat (destruct H as [<- | H]; [vm_compute; reflexivity |]).
  contradiction.
Qed.

Section EntryPointFacts.

Context {Image : Type}.
Variable generate_content : list Image -> Image -> Upstream.

#[local] Open Scope string_scope.

(** X8: a response that is exactly one of the labels, in any letter case
    and with any surrounding white space, is classified as that label; in
    particular the title-cased label that the entry point displays is
    read back as the label it came from. *)
Theorem exact_label_round_trip (img : Image) (w : World Image)
        (raw k : string) :
  generate_content (requests w) img = Replied (Some raw) ->
  In k (keys DEFECT_LOSS) ->
  PyStr.lower (PyStr.strip raw) = k \/ raw = PyStr.title k ->
  fst (classify_image generate_content (Some img) w) = k.
Proof.
  intros Hgc Hk Hraw.
  assert (Hlabel : PyStr.lower (PyStr.strip raw) = k).
  { destruct Hraw as [H | ->]; [exact H | now apply lower_strip_title_key]. }
  rewrite (classify_image_replied _ _ _ _ Hgc). cbn [fst].
  destruct raw as [| c raw].
  - exfalso. cbn in Hlabel. subst k. cbn in Hk. intuition discriminate.
  - unfold label_of_text. cbn [PyStr.truthy negb].
    rewrite Hlabel, (first_key_in_key k Hk). reflexivity.
Qed.

(** X9: a response in which [clean] occurs anywhere is classified as
    [clean], whatever else it says: [clean] is the first key tried. *)
Theorem clean_takes_precedence (img : Image) (w : World Image)
        (raw : string) :
  generate_content (requests w) img = Replied (Some raw) ->
  PyStr.occurs_in "clean" (PyStr.lower (PyStr.strip raw)) ->
  fst (classify_image generate_content (Some img) w) = "clean".
Proof.
  intros Hgc Hocc.
  rewrite (classify_image_replied _ _ _ _ Hgc). cbn [fst].
  unfold label_of_text. destruct (negb (PyStr.truthy raw)); [reflexivity |].
  apply contains_spec in Hocc.
  change (keys DEFECT_LOSS)
    with ("clean" :: tl (keys DEFECT_LOSS)).
  cbn [first_key_in]. rewrite Hocc. reflexivity.
Qed.

(** X10: one analysis with both inputs present sends exactly one request
    to the remote model, and prints a line only when that call raised;
    [classify_image] without an image sends nothing and prints nothing. *)
Theorem analysis_effects (img : Image) (L : Q) (w : World Image) :
  snd (compute_best_angle generate_content (Some img) (Some L) w)
  = mkWorld (requests w ++ [img])
            (stdout w
             ++ match generate_content (requests w) img with
                | Raised message =>
                    ["Error during classification: " ++ message]
                | Replied _ => []
                end)
  /\ classify_image generate_content None w = ("clean", w).
Proof.
  split; [| reflexivity].
  unfold compute_best_angle, bind.
  destruct (generate_content (requests w) img) as [message | text] eqn:E.
  - rewrite (classify_image_raised _ _ _ _ E).
    destruct (search L _) as [a e]. reflexivity.
  - rewrite (classify_image_replied _ _ _ _ E).
    destruct (search L _) as [a e]. cbn [snd ret]. now rewrite app_nil_r.
Qed.

End EntryPointFacts.

Lemma exact_label_round_trip_witness :
  always_replies "  Snow Covered " (requests idle) tt
  = Replied (Some "  Snow Covered "%string)
  /\ In "snow covered"%string (keys DEFECT_LOSS)
  /\ fst (classify_image (always_replies "  Snow Covered ") (Some tt) idle)
     = "snow covered"%string.
Proof.
  split; [reflexivity |].
  assert (Hk : In "snow covered"%string (keys DEFECT_LOSS))
    by (cbn; auto 10).
  split; [exact Hk |].
  apply (exact_label_round_trip (always_replies "  Snow Covered ") tt idle
                                "  Snow Covered " "snow covered" eq_refl Hk).
  left. reflexivity.
Defined.

Lemma clean_takes_precedence_witness :
  always_replies "Not clean: dusty" (requests idle) tt
  = Replied (Some "Not clean: dusty"%string)
  /\ PyStr.occurs_in "clean" (PyStr.lower (PyStr.strip "Not clean: dusty"))
  /\ PyStr.occurs_in "dusty" (PyStr.lower (PyStr.strip "Not clean: dusty"))
  /\ fst (classify_image (always_replies "Not clean: dusty") (Some tt) idle)
     = "clean"%string.
Proof.
  split; [reflexivity |].
  assert (Hc : PyStr.occurs_in "clean"
                 (PyStr.lower (PyStr.strip "Not clean: dusty")))
    by (exists "not "%string, ": dusty"%string; reflexivity).
  split; [exact Hc |].
  split; [exists "not clean: "%string, ""%string; reflexivity |].
  exact (clean_takes_precedence (always_replies "Not clean: dusty") tt idle
                                "Not clean: dusty" eq_refl Hc).
Defined.

(** X12: on every whole-number latitude from 0 to 90 and every loss of the
    table, the search evaluated on IEEE doubles returns the same angle as
    the search on exact rationals. *)
Theorem binary64_agrees_on_integer_latitudes (n : nat) (c : string)
        (loss : Z) :
  (n <= 90)%nat ->
  lookup DEFECT_LOSS c = Some loss ->
  Z.of_nat (fst (Binary64.search (Binary64.of_nat n)
                                 (Binary64.of_nat (Z.to_nat loss))))
  = fst (search (inject_Z (Z.of_nat n)) (inject_Z loss)).
Proof.
  intros Hn Hc.
  assert (Hall :
            forallb
              (fun l =>
                 forallb
                   (fun n =>
                      (Z.of_nat (fst (Binary64.search
                                        (Binary64.of_nat n)
                                        (Binary64.of_nat (Z.to_nat l))))
                       =? fst (search (inject_Z (Z.of_nat n)) (inject_Z l)))%Z)
                   (seq 0 91))
              [0; 20; 30; 40; 50; 60]%Z = true)
    by (vm_compute; reflexivity).
  rewrite forallb_forall in Hall.
  specialize (Hall loss (table_values c loss Hc)).
  rewrite forallb_forall in Hall.
  apply Z.eqb_eq, Hall, in_seq. lia.
Qed.

Lemma binary64_agrees_on_integer_latitudes_witness :
  (28 <= 90)%nat
  /\ lookup DEFECT_LOSS "bird drop" = Some 30%Z
  /\ Z.of_nat (fst (Binary64.search (Binary64.of_nat 28)
                                    (Binary64.of_nat (Z.to_nat 30))))
     = fst (search (inject_Z (Z.of_nat 28)) (inject_Z 30)).
Proof.
  split; [lia |]. split; [reflexivity |].
  apply (binary64_agrees_on_integer_latitudes 28 "bird drop" 30);
    [lia | reflexivity].
Defined.

(** * The code on IEEE doubles *)

Section Doubles.

Import PrimFloat.
#[local] Open Scope float_scope.

(** ** Order *)








(** ** The search *)






(** ** Exact values and rounding to two decimals *)











(** ** The range of the result *)



(** The conversion of an int at the edge of the doubles: the largest int
    that still converts gives the largest double. *)
Example float_of_int_edge :
  Binary64.float_of_int 28 = Some 28
  /\ Binary64.float_of_int (2 ^ 53 + 1) = Some 0x1p+53
  /\ Binary64.float_of_int (2 ^ 1024 - 2 ^ 970 - 1)
     = Some 0x1.fffffffffffffp+1023
  /\ Binary64.float_of_int (2 ^ 1024 - 2 ^ 970) = None
  /\ Binary64.float_of_int (- 10 ^ 400) = None.
Proof. repeat split; vm_compute; reflexivity. Qed.

(** [round] on doubles: ties are decided on the exact value of the
    double. *)
Example round2_examples :
  Binary64.round2 0x1p-3 = Binary64.of_Z 12 / 100
  /\ Binary64.round2 0x1.8p-2 = Binary64.of_Z 38 / 100
  /\ Binary64.round2 (Binary64.of_Z 2675 / 1000) = Binary64.of_Z 267 / 100
  /\ Binary64.round2 (snd (Binary64.search 0x1.9p+0 0))
     = Binary64.of_Z 9789 / 100.
Proof. repeat split; vm_compute; reflexivity. Qed.

(** ** The loss shift *)




(** ** Latitudes from 0 to 90 *)



End Doubles.
